(** * Term normalisation for auto-loan rate records

    A shallow embedding of [scripts/normalize_terms.py] and the properties
    its specification states about it.

    Python integers are unbounded, so they are [Z]; [abs] and [min] are
    [Z.abs] and [Z.min].  A raised exception is a value of [exn] returned
    through [result].  Dictionaries are [gmap string value]; the record
    normaliser, which copies its argument and writes to the copy, runs over an
    explicit store of dictionary objects so that the caller's object and the
    returned one are different references. *)

From Stdlib Require Import ZArith Lia.
From stdpp Require Import base option strings pretty list gmap fin_maps.

Local Open Scope Z_scope.

(** ** Exceptions and results *)

(** The module raises [ValueError] itself, with three different messages;
    [TypeError], [IndexError] and [KeyError] are what the interpreter raises
    on an ill-typed comparison, on [xs[0]] of an empty list and on [d[k]] of
    an absent key. *)
Inductive exn : Type :=
  | ValueError (msg : string)
  | TypeError
  | IndexError
  | KeyError (key : string).

Inductive result (A : Type) : Type :=
  | Ok (a : A)
  | Raise (e : exn).
Arguments Ok {A} a.
Arguments Raise {A} e.

Global Instance result_ret : MRet result := λ A a, Ok a.
Global Instance result_bind : MBind result := λ A B k r,
  match r with
  | Ok a => k a
  | Raise e => Raise e
  end.

(** ** The table of standard terms *)

Definition INDUSTRY_STANDARD_TERMS : list Z := [36; 48; 60; 72; 84].

(** [xs[0]]. *)
Definition first_item (xs : list Z) : result Z :=
  match xs with
  | x :: _ => Ok x
  | [] => Raise IndexError
  end.

(** ** Integers in f-strings *)

(** [str(n)], which is what an f-string field [{n}] renders for an integer.
    CPython converts an integer to decimal only up to
    [sys.get_int_max_str_digits()] digits, 4300 by default, the sign not
    counted; beyond that the conversion raises a [ValueError] of its own in
    place of the string. *)
Definition int_max_str_digits : Z := 4300.

Definition int_str_limit_msg : string :=
  "Exceeds the limit (4300 digits) for integer string conversion; use sys.set_int_max_str_digits() to increase the limit".

Definition decimal_digits (n : Z) : Z :=
  Z.of_nat (String.length (pretty (Z.abs n))).

Definition int_str (n : Z) : result string :=
  if decimal_digits n <=? int_max_str_digits
  then Ok (pretty n)
  else Raise (ValueError int_str_limit_msg).

(** ** normalize_term_to_standard *)

Definition invalid_term_msg (term : string) : string :=
  "Invalid term: " +:+ term +:+ ". Term must be a non-negative number.".

(** One iteration of the [for standard_term in ...] loop; the loop state is
    the pair of the two variables the body assigns. *)
Definition scan_step (term : Z) (st : Z * Z) (standard_term : Z) : Z * Z :=
  let '(nearest_term, min_distance) := st in
  let distance := Z.abs (term - standard_term) in
  if distance <? min_distance then (standard_term, distance)
  else if distance =? min_distance
       then (Z.min nearest_term standard_term, min_distance)
       else (nearest_term, min_distance).

(** The statements from [nearest_term = TERMS[0]] to [return nearest_term]. *)
Definition nearest_scan (terms : list Z) (term : Z) : result Z :=
  nearest_term ← first_item terms;
  let min_distance := Z.abs (term - nearest_term) in
  Ok (fst (fold_left (scan_step term) terms (nearest_term, min_distance))).

(** The body of the function, with the module constant it reads as an
    argument. *)
Definition normalize_term_in (terms : list Z) (term : Z) : result Z :=
  if term =? 0 then first_item terms
  else if term <? 0 then
    shown ← int_str term;
    Raise (ValueError (invalid_term_msg shown))
  else nearest_scan terms term.

Definition normalize_term_to_standard (term : Z) : result Z :=
  normalize_term_in INDUSTRY_STANDARD_TERMS term.

(** ** normalize_term_range *)

Definition invalid_range_msg (term_min term_max : string) : string :=
  "Invalid range: min (" +:+ term_min +:+ ") > max (" +:+ term_max +:+ ")".

Definition normalize_term_range (term_min term_max : Z) : result (Z * Z) :=
  if term_min >? term_max
  then
    shown_min ← int_str term_min;
    shown_max ← int_str term_max;
    Raise (ValueError (invalid_range_msg shown_min shown_max))
  else
    normalized_min ← normalize_term_to_standard term_min;
    normalized_max ← normalize_term_to_standard term_max;
    Ok (normalized_min, normalized_max).

(** ** is_standard_term *)

Definition is_standard_term (term : Z) : bool :=
  bool_decide (term ∈ INDUSTRY_STANDARD_TERMS).

(** ** get_term_normalization_info *)

(** The values a rate record or an info dictionary holds: [None], booleans,
    integers and strings.  Floating-point numbers are not represented, so a
    statement over all values of this type says nothing about a record with
    a float under one of its term keys. *)
Inductive value : Type :=
  | VNone
  | VBool (b : bool)
  | VInt (z : Z)
  | VStr (s : string).

Definition get_term_normalization_info (term : Z) : result (gmap string value) :=
  normalized ← normalize_term_to_standard term;
  Ok (list_to_map
        [ ("original", VInt term);
          ("normalized", VInt normalized);
          ("distance", VInt (Z.abs (term - normalized)));
          ("wasModified", VBool (negb (term =? normalized))) ]).

(** ** Dynamically typed arguments

    [normalize_rate_terms] passes whatever the record holds under the term
    keys to the two normalisers, so their behaviour on values that are not
    integers is part of the record normaliser.  [bool] is a subclass of
    [int]: [True] and [False] compute as 1 and 0. *)

Definition as_int (v : value) : option Z :=
  match v with
  | VInt z => Some z
  | VBool b => Some (if b then 1 else 0)
  | VNone | VStr _ => None
  end.

(** [str(v)], which is what an f-string field [{v}] renders. *)
Definition py_str (v : value) : result string :=
  match v with
  | VNone => Ok "None"
  | VBool b => Ok (if b then "True" else "False")
  | VInt z => int_str z
  | VStr s => Ok s
  end.

(** [a > b]: numbers compare by value, two strings lexicographically by code
    point (which is the byte order of their UTF-8 encoding); anything else is
    a [TypeError]. *)
Definition py_gt (a b : value) : result bool :=
  match as_int a, as_int b with
  | Some x, Some y => Ok (x >? y)
  | _, _ =>
      match a, b with
      | VStr s, VStr t => Ok (String.ltb t s)
      | _, _ => Raise TypeError
      end
  end.

(** [normalize_term_to_standard(term)] for an arbitrary value: on a string or
    [None], [term == 0] is false and [term < 0] raises [TypeError]. *)
Definition normalize_term_to_standard_dyn (term : value) : result Z :=
  match as_int term with
  | Some n => normalize_term_to_standard n
  | None => Raise TypeError
  end.

(** [normalize_term_range(term_min, term_max)] for arbitrary values. *)
Definition normalize_term_range_dyn (term_min term_max : value) : result (Z * Z) :=
  gt ← py_gt term_min term_max;
  if gt : bool
  then
    shown_min ← py_str term_min;
    shown_max ← py_str term_max;
    Raise (ValueError (invalid_range_msg shown_min shown_max))
  else
    normalized_min ← normalize_term_to_standard_dyn term_min;
    normalized_max ← normalize_term_to_standard_dyn term_max;
    Ok (normalized_min, normalized_max).

(** ** The store of dictionary objects *)

(** A rate record is a reference to a dictionary in the store.  A computation
    takes the store and gives an outcome with the new store, or [None] when
    it follows a reference that the store does not hold (which no Python
    program can do). *)
Abbreviation loc := nat (only parsing).
Abbreviation store := (gmap loc (gmap string value)) (only parsing).
Definition M (A : Type) : Type := store → option (result A * store).

Global Instance M_ret : MRet M := λ A a h, Some (Ok a, h).
Global Instance M_bind : MBind M := λ A B k m h,
  match m h with
  | Some (Ok a, h') => k a h'
  | Some (Raise e, h') => Some (Raise e, h')
  | None => None
  end.

(** An outcome of pure code, run inside a store computation. *)
Definition lift {A} (r : result A) : M A := λ h, Some (r, h).

(** [raise e] *)
Definition raise {A} (e : exn) : M A := lift (Raise e).

(** [d.copy()]: a new object with the same items. *)
Definition dict_copy (d : loc) : M loc := λ h,
  items ← h !! d;
  let new := fresh (dom h) in
  Some (Ok new, <[new := items]> h).

(** [k in d] *)
Definition dict_contains (d : loc) (k : string) : M bool := λ h,
  items ← h !! d;
  Some (Ok (bool_decide (is_Some (items !! k))), h).

(** [d[k]] *)
Definition dict_getitem (d : loc) (k : string) : M value := λ h,
  items ← h !! d;
  Some (from_option Ok (Raise (KeyError k)) (items !! k), h).

(** [d[k] = v] *)
Definition dict_setitem (d : loc) (k : string) (v : value) : M unit := λ h,
  items ← h !! d;
  Some (Ok (), <[d := <[k := v]> items]> h).

(** ** normalize_rate_terms *)

Definition missing_terms_msg : string :=
  "Rate data must include either termMonths or termMin/termMax".

Definition normalize_rate_terms (rate_data : loc) : M loc :=
  result ← dict_copy rate_data;
  has_exact ← dict_contains rate_data "termMonths";
  '(term_min, term_max) ←
    (if has_exact : bool then
       term ← dict_getitem rate_data "termMonths";
       normalized ← lift (normalize_term_to_standard_dyn term);
       mret (normalized, normalized)
     else
       has_min ← dict_contains rate_data "termMin";
       has_max ← (if has_min : bool
                  then dict_contains rate_data "termMax" else mret false);
       if has_max : bool then
         lo ← dict_getitem rate_data "termMin";
         hi ← dict_getitem rate_data "termMax";
         lift (normalize_term_range_dyn lo hi)
       else raise (ValueError missing_terms_msg));
  dict_setitem result "term_range_min" (VInt term_min);;
  dict_setitem result "term_range_max" (VInt term_max);;
  dict_setitem result "term_label"
    (VStr (if term_min =? term_max
           then pretty term_min +:+ " Months"
           else pretty term_min +:+ "-" +:+ pretty term_max +:+ " Months"));;
  mret result.

(** ** Predicates used in the statements *)

(** [r] is the candidate of [cands] nearest to [term]: no candidate is
    strictly closer, and every candidate exactly as close is at least [r]. *)
Definition nearest_of (term : Z) (cands : list Z) (r : Z) : Prop :=
  r ∈ cands ∧
  ∀ c, c ∈ cands →
    Z.abs (term - r) ≤ Z.abs (term - c) ∧
    (Z.abs (term - c) = Z.abs (term - r) → r ≤ c).

(** The dispatch of [normalize_rate_terms] on the items of the record: the
    bounds it goes on to write, or the exception it raises. *)
Definition term_bounds (items : gmap string value) : result (Z * Z) :=
  match items !! "termMonths" with
  | Some term =>
      normalized ← normalize_term_to_standard_dyn term;
      Ok (normalized, normalized)
  | None =>
      match items !! "termMin", items !! "termMax" with
      | Some lo, Some hi => normalize_term_range_dyn lo hi
      | _, _ => Raise (ValueError missing_terms_msg)
      end
  end.

(** The items of the returned record for bounds [lo] and [hi]. *)
Definition with_bounds (lo hi : Z) (items : gmap string value)
  : gmap string value :=
  <["term_label" :=
      VStr (if lo =? hi
            then pretty lo +:+ " Months"
            else pretty lo +:+ "-" +:+ pretty hi +:+ " Months")]>
    (<["term_range_max" := VInt hi]> (<["term_range_min" := VInt lo]> items)).

(** The three keys the record normaliser writes. *)
Definition written_keys : list string :=
  ["term_range_min"; "term_range_max"; "term_label"].

(** The label text the specification gives for a pair of bounds. *)
Definition label_of (lo hi : Z) : string :=
  if bool_decide (lo = hi)
  then pretty lo +:+ " Months"
  else pretty lo +:+ "-" +:+ pretty hi +:+ " Months".

(** [normalize_rate_terms rate_data] on store [h] returns a reference to a
    record whose three written fields are the bounds [lo], [hi] and their
    label. *)
Definition returns_bounds (rate_data : loc) (h : store) (lo hi : Z) : Prop :=
  ∃ (out : loc) (h' : store) (d' : gmap string value),
    normalize_rate_terms rate_data h = Some (Ok out, h') ∧
    h' !! out = Some d' ∧
    d' !! "term_range_min" = Some (VInt lo) ∧
    d' !! "term_range_max" = Some (VInt hi) ∧
    d' !! "term_label" = Some (VStr (label_of lo hi)).

(** The call on [rate_data] returns a reference to a record with the items
    [items'], or raises [e]. *)
Definition returns_items (rate_data : loc) (h : store)
    (items' : gmap string value) : Prop :=
  ∃ (out : loc) (h' : store),
    normalize_rate_terms rate_data h = Some (Ok out, h') ∧
    h' !! out = Some items'.

Definition call_raises (rate_data : loc) (h : store) (e : exn) : Prop :=
  ∃ h' : store, normalize_rate_terms rate_data h = Some (Raise e, h').

(** The keys the record normaliser reads. *)
Definition term_keys : list string := ["termMonths"; "termMin"; "termMax"].

(** The term fields the record has hold integers ([bool] included). *)
Definition integer_terms (items : gmap string value) : Prop :=
  ∀ k v, k ∈ term_keys → items !! k = Some v → is_Some (as_int v).

(** Every integer the record holds has at most 4300 decimal digits, so that
    an f-string can render it. *)
Definition printable_ints (items : gmap string value) : Prop :=
  ∀ k z, items !! k = Some (VInt z) → decimal_digits z ≤ int_max_str_digits.

(** The sample records of the module's driver and of the specification
    (without their floating-point [apr] field). *)
Definition sccu_rate : gmap string value :=
  list_to_map [ ("termMonths", VInt 66); ("vehicle_condition", VStr "new");
                ("loan_type", VStr "purchase"); ("source", VStr "SCCU") ].

Definition range_rate : gmap string value :=
  list_to_map [ ("termMin", VInt 37); ("termMax", VInt 60);
                ("vehicle_condition", VStr "new"); ("source", VStr "NFCU") ].

Definition no_term_rate : gmap string value :=
  list_to_map [ ("source", VStr "NFCU") ].

(** * Properties *)

(** ** The documented examples *)

Example normalize_66 : normalize_term_to_standard 66 = Ok 60.
Proof. reflexivity. Qed.
Example normalize_75 : normalize_term_to_standard 75 = Ok 72.
Proof. reflexivity. Qed.
Example normalize_48 : normalize_term_to_standard 48 = Ok 48.
Proof. reflexivity. Qed.
Example normalize_neg :
  normalize_term_to_standard (-1)
  = Raise (ValueError "Invalid term: -1. Term must be a non-negative number.").
Proof. reflexivity. Qed.
Example range_37_60 : normalize_term_range 37 60 = Ok (36, 60).
Proof. reflexivity. Qed.
Example range_61_75 : normalize_term_range 61 75 = Ok (60, 72).
Proof. reflexivity. Qed.
Example range_10_5 :
  normalize_term_range 10 5 = Raise (ValueError "Invalid range: min (10) > max (5)").
Proof. reflexivity. Qed.
Example standard_60 : is_standard_term 60 = true.
Proof. reflexivity. Qed.
Example standard_66 : is_standard_term 66 = false.
Proof. reflexivity. Qed.

(** ** The scan *)

Section Scan.
Variable term : Z.

Implicit Types (c r nearest : Z) (seen l : list Z).

Lemma nearest_of_singleton c : nearest_of term [c] c.
Proof.
  split; [by apply list_elem_of_singleton|].
  intros c' Hc'. apply list_elem_of_singleton in Hc'. lia.
Qed.

Lemma nearest_of_equiv seen l r :
  (∀ c, c ∈ seen ↔ c ∈ l) → nearest_of term seen r → nearest_of term l r.
Proof.
  intros Heq [Hin Hbest]. split; [by apply Heq|].
  intros c Hc. apply Hbest. by apply Heq.
Qed.

Lemma elem_of_snoc seen c c' : c' ∈ seen ++ [c] → c' ∈ seen ∨ c' = c.
Proof.
  intros [?|?%list_elem_of_singleton]%elem_of_app; [by left|by right].
Qed.

(** One iteration keeps the loop invariant: [nearest_term] is the nearest of
    the candidates seen so far and [min_distance] is its distance. *)
Lemma scan_step_inv seen nearest c :
  nearest_of term seen nearest →
  ∃ r, scan_step term (nearest, Z.abs (term - nearest)) c
       = (r, Z.abs (term - r)) ∧
       nearest_of term (seen ++ [c]) r.
Proof.
  intros [Hin Hbest]. unfold scan_step.
  destruct (Z.ltb_spec (Z.abs (term - c)) (Z.abs (term - nearest))) as [Hlt|Hge].
  - exists c. split; [done|]. split; [apply elem_of_app; right; left|].
    intros c' [Hc'|Hc']%elem_of_snoc; [|lia].
    destruct (Hbest c' Hc'). lia.
  - destruct (Z.eqb_spec (Z.abs (term - c)) (Z.abs (term - nearest))) as [Heq|Hne].
    + exists (Z.min nearest c). split.
      { f_equal. destruct (Z.min_spec nearest c) as [[_ ->]|[_ ->]]; lia. }
      split.
      { apply elem_of_app.
        destruct (Z.min_spec nearest c) as [[_ ->]|[_ ->]]; [by left|right; left]. }
      intros c' [Hc'|Hc']%elem_of_snoc.
      * destruct (Hbest c' Hc'). lia.
      * lia.
    + exists nearest. split; [done|]. split; [apply elem_of_app; by left|].
      intros c' [Hc'|Hc']%elem_of_snoc; [|lia].
      by apply Hbest.
Qed.

Lemma scan_fold_inv l : ∀ seen nearest,
  nearest_of term seen nearest →
  nearest_of term (seen ++ l)
    (fst (fold_left (scan_step term) l (nearest, Z.abs (term - nearest)))).
Proof.
  induction l as [|c l IH]; intros seen nearest Hinv; cbn [fold_left].
  - by rewrite app_nil_r.
  - destruct (scan_step_inv seen nearest c Hinv) as (r & -> & Hr).
    rewrite (cons_middle c seen l), (assoc_L (++)).
    by apply IH.
Qed.

(** The scan of a non-empty table returns its nearest candidate. *)
Lemma nearest_scan_spec c l :
  ∃ r, nearest_scan (c :: l) term = Ok r ∧ nearest_of term (c :: l) r.
Proof.
  eexists. split; [reflexivity|].
  eapply (nearest_of_equiv ([c] ++ c :: l)).
  { intros c'. rewrite elem_of_app, list_elem_of_singleton, elem_of_cons. tauto. }
  apply (scan_fold_inv (c :: l) [c] c), nearest_of_singleton.
Qed.

End Scan.

(** ** The normaliser on the standard table *)

Lemma elem_of_standard r :
  r ∈ INDUSTRY_STANDARD_TERMS ↔ r = 36 ∨ r = 48 ∨ r = 60 ∨ r = 72 ∨ r = 84.
Proof.
  unfold INDUSTRY_STANDARD_TERMS.
  rewrite !elem_of_cons, elem_of_nil. tauto.
Qed.

(** [nearest_of] on the standard table, as arithmetic. *)
Lemma nearest_of_standard t r :
  nearest_of t INDUSTRY_STANDARD_TERMS r ↔
  (r = 36 ∨ r = 48 ∨ r = 60 ∨ r = 72 ∨ r = 84) ∧
  ∀ c, (c = 36 ∨ c = 48 ∨ c = 60 ∨ c = 72 ∨ c = 84) →
    Z.abs (t - r) ≤ Z.abs (t - c) ∧ (Z.abs (t - c) = Z.abs (t - r) → r ≤ c).
Proof.
  unfold nearest_of. rewrite elem_of_standard.
  split; intros [Hr Hbest]; (split; [done|]); intros c Hc;
    apply Hbest; by apply elem_of_standard.
Qed.

(** The five intervals the nearest candidate cuts the integers into. *)
Lemma nearest_of_standard_cases t r :
  nearest_of t INDUSTRY_STANDARD_TERMS r ↔
  (t ≤ 42 ∧ r = 36) ∨ (43 ≤ t ≤ 54 ∧ r = 48) ∨ (55 ≤ t ≤ 66 ∧ r = 60) ∨
  (67 ≤ t ≤ 78 ∧ r = 72) ∨ (79 ≤ t ∧ r = 84).
Proof.
  rewrite nearest_of_standard. split.
  - intros [Hr Hbest].
    pose proof (Hbest 36 ltac:(tauto)). pose proof (Hbest 48 ltac:(tauto)).
    pose proof (Hbest 60 ltac:(tauto)). pose proof (Hbest 72 ltac:(tauto)).
    pose proof (Hbest 84 ltac:(tauto)). clear Hbest.
    destruct Hr as [->|[->|[->|[->| ->]]]]; lia.
  - intros Hcase. split; [lia|].
    intros c Hc. lia.
Qed.

(** On a non-negative term the normaliser returns, and what it returns is
    the nearest standard term.  At 0 the early return and the scan agree. *)
Lemma normalize_nonneg t :
  0 ≤ t →
  ∃ r, normalize_term_to_standard t = Ok r ∧
       nearest_of t INDUSTRY_STANDARD_TERMS r.
Proof.
  intros Ht. unfold normalize_term_to_standard, normalize_term_in.
  destruct (Z.eqb_spec t 0) as [->|Hne].
  - exists 36. split; [done|]. apply nearest_of_standard_cases. lia.
  - destruct (Z.ltb_spec t 0); [lia|]. apply nearest_scan_spec.
Qed.

Lemma int_str_within n :
  decimal_digits n ≤ int_max_str_digits → int_str n = Ok (pretty n).
Proof.
  intros Hn. unfold int_str.
  by destruct (Z.leb_spec (decimal_digits n) int_max_str_digits); [|lia].
Qed.

Lemma int_str_cases n :
  int_str n = Ok (pretty n) ∨ int_str n = Raise (ValueError int_str_limit_msg).
Proof.
  unfold int_str. destruct (decimal_digits n <=? int_max_str_digits); tauto.
Qed.

Lemma normalize_negative t :
  t < 0 →
  normalize_term_to_standard t
  = (shown ← int_str t; Raise (ValueError (invalid_term_msg shown))).
Proof.
  intros Ht. unfold normalize_term_to_standard, normalize_term_in.
  destruct (Z.eqb_spec t 0); [lia|]. by destruct (Z.ltb_spec t 0); [|lia].
Qed.

Lemma normalize_negative_raises t :
  t < 0 →
  normalize_term_to_standard t
  = Raise (ValueError (invalid_term_msg (pretty t))) ∨
  normalize_term_to_standard t = Raise (ValueError int_str_limit_msg).
Proof.
  intros Ht. rewrite (normalize_negative t Ht).
  destruct (int_str_cases t) as [->| ->]; [by left|by right].
Qed.

Lemma normalize_negative_within t :
  t < 0 → decimal_digits t ≤ int_max_str_digits →
  normalize_term_to_standard t
  = Raise (ValueError (invalid_term_msg (pretty t))).
Proof.
  intros Ht Hd. by rewrite (normalize_negative t Ht), (int_str_within t Hd).
Qed.

Lemma range_inverted a b :
  a > b →
  normalize_term_range a b
  = (shown_min ← int_str a; shown_max ← int_str b;
     Raise (ValueError (invalid_range_msg shown_min shown_max))).
Proof.
  intros Hgt. unfold normalize_term_range.
  by destruct (Z.gtb_spec a b); [|lia].
Qed.

Lemma range_inverted_raises a b :
  a > b →
  normalize_term_range a b
  = Raise (ValueError (invalid_range_msg (pretty a) (pretty b))) ∨
  normalize_term_range a b = Raise (ValueError int_str_limit_msg).
Proof.
  intros Hgt. rewrite (range_inverted a b Hgt).
  destruct (int_str_cases a) as [->| ->]; [|by right].
  destruct (int_str_cases b) as [->| ->]; [by left|by right].
Qed.

Lemma normalize_term_range_ok a b lo hi :
  normalize_term_range a b = Ok (lo, hi) ↔
  a ≤ b ∧ normalize_term_to_standard a = Ok lo ∧
  normalize_term_to_standard b = Ok hi.
Proof.
  unfold normalize_term_range.
  destruct (Z.gtb_spec a b) as [Hgt|Hle].
  - split; [|intros [? _]; lia].
    destruct (int_str a); simpl; [destruct (int_str b); simpl|]; done.
  - destruct (normalize_term_to_standard a) as [x|e]; simpl.
    + destruct (normalize_term_to_standard b) as [y|e]; simpl;
        [|split; [done|by intros (_ & _ & ?)]].
      split; [intros [= -> ->]; by repeat split|].
      by intros (_ & [= ->] & [= ->]).
    + split; [done|by intros (_ & ? & _)].
Qed.

Example normalize_42 : normalize_term_to_standard 42 = Ok 36.
Proof. reflexivity. Qed.
Example normalize_0 : normalize_term_to_standard 0 = Ok 36.
Proof. reflexivity. Qed.

(** C1: for every term [t > 0] the normaliser returns a standard term whose
    distance to [t] is the least over all five candidates, and among the
    candidates at that least distance it returns the smallest
    ([normalize_42], [normalize_66]: 42 gives 36 and 66 gives 60). *)
Theorem normalize_nearest_smallest_tie (t : Z) :
  0 < t →
  ∃ r, normalize_term_to_standard t = Ok r ∧
       r ∈ INDUSTRY_STANDARD_TERMS ∧
       (∀ c, c ∈ INDUSTRY_STANDARD_TERMS → Z.abs (t - r) ≤ Z.abs (t - c)) ∧
       (∀ c, c ∈ INDUSTRY_STANDARD_TERMS →
             Z.abs (t - c) = Z.abs (t - r) → r ≤ c).
Proof.
  intros Ht. destruct (normalize_nonneg t) as (r & Hr & Hin & Hbest); [lia|].
  exists r. repeat split; [done..| |]; intros c Hc; by apply Hbest.
Qed.

Lemma normalize_nearest_smallest_tie_witness :
  ∃ r, normalize_term_to_standard 42 = Ok r ∧
       r ∈ INDUSTRY_STANDARD_TERMS ∧
       (∀ c, c ∈ INDUSTRY_STANDARD_TERMS → Z.abs (42 - r) ≤ Z.abs (42 - c)) ∧
       (∀ c, c ∈ INDUSTRY_STANDARD_TERMS →
             Z.abs (42 - c) = Z.abs (42 - r) → r ≤ c).
Proof. apply (normalize_nearest_smallest_tie 42). lia. Defined.

(** C3: the normaliser is monotone on non-negative terms, so a range with
    [0 <= term_min <= term_max] is normalised to a pair with
    [normalized_min <= normalized_max]. *)
Theorem normalize_monotone (a b : Z) :
  0 ≤ a → a ≤ b →
  ∃ x y, normalize_term_to_standard a = Ok x ∧
         normalize_term_to_standard b = Ok y ∧
         x ≤ y ∧
         normalize_term_range a b = Ok (x, y).
Proof.
  intros Ha Hab.
  destruct (normalize_nonneg a Ha) as (x & Hx & Hxa).
  destruct (normalize_nonneg b) as (y & Hy & Hyb); [lia|].
  exists x, y. split; [done|]. split; [done|]. split.
  - apply nearest_of_standard_cases in Hxa, Hyb. lia.
  - by apply normalize_term_range_ok.
Qed.

Lemma normalize_monotone_witness :
  ∃ x y, normalize_term_to_standard 37 = Ok x ∧
         normalize_term_to_standard 60 = Ok y ∧
         x ≤ y ∧
         normalize_term_range 37 60 = Ok (x, y).
Proof. apply (normalize_monotone 37 60); lia. Defined.

(** C4: the term normaliser raises exactly on a negative term, and what it
    raises is a [ValueError]; the range normaliser raises a [ValueError] when
    [term_min > term_max]; on non-negative terms with
    [term_min <= term_max], equal bounds included, both return.  The
    [ValueError] carries the invalid-term or invalid-range message whenever
    the integers it quotes have at most 4300 digits. *)
Theorem normalizers_fail_exactly (t a b : Z) :
  (t < 0 ↔ ∃ e, normalize_term_to_standard t = Raise e) ∧
  (t < 0 → ∃ msg, normalize_term_to_standard t = Raise (ValueError msg)) ∧
  (t < 0 → decimal_digits t ≤ int_max_str_digits →
     normalize_term_to_standard t
     = Raise (ValueError (invalid_term_msg (pretty t)))) ∧
  (a > b → ∃ msg, normalize_term_range a b = Raise (ValueError msg)) ∧
  (a > b → decimal_digits a ≤ int_max_str_digits →
     decimal_digits b ≤ int_max_str_digits →
     normalize_term_range a b
     = Raise (ValueError (invalid_range_msg (pretty a) (pretty b)))) ∧
  (0 ≤ a → a ≤ b → ∃ lo hi, normalize_term_range a b = Ok (lo, hi)).
Proof.
  split; [split|split; [|split; [|split; [|split]]]].
  - intros Ht. destruct (normalize_negative_raises t Ht); by eexists.
  - intros [e He]. destruct (Z.lt_ge_cases t 0) as [|Ht]; [done|].
    destruct (normalize_nonneg t Ht) as (r & Hr & _). congruence.
  - intros Ht. destruct (normalize_negative_raises t Ht); by eexists.
  - apply normalize_negative_within.
  - intros Hgt. destruct (range_inverted_raises a b Hgt); by eexists.
  - intros Hgt Ha Hb.
    by rewrite (range_inverted a b Hgt), (int_str_within a Ha),
               (int_str_within b Hb).
  - intros Ha Hab.
    destruct (normalize_nonneg a Ha) as (x & Hx & _).
    destruct (normalize_nonneg b) as (y & Hy & _); [lia|].
    exists x, y. by apply normalize_term_range_ok.
Qed.

Lemma normalizers_fail_exactly_witness :
  (∃ msg, normalize_term_to_standard (-1) = Raise (ValueError msg)) ∧
  normalize_term_to_standard (-1)
  = Raise (ValueError (invalid_term_msg (pretty (-1)))) ∧
  (∃ msg, normalize_term_range 10 5 = Raise (ValueError msg)) ∧
  normalize_term_range 10 5
  = Raise (ValueError (invalid_range_msg (pretty 10) (pretty 5))) ∧
  ∃ lo hi, normalize_term_range 48 48 = Ok (lo, hi).
Proof.
  split; [apply (normalizers_fail_exactly (-1) 10 5); lia|].
  split; [apply (normalizers_fail_exactly (-1) 10 5); [lia|by vm_compute]|].
  split; [apply (normalizers_fail_exactly (-1) 10 5); lia|].
  split; [apply (normalizers_fail_exactly (-1) 10 5);
            [lia|by vm_compute|by vm_compute]|].
  apply (normalizers_fail_exactly 0 48 48); lia.
Defined.

(** C7: at 0 the normaliser returns 36, the first entry of the table, and
    that is settled by the first test of the function whatever the table
    holds: no distance is compared (on the table [100; 1] it returns 100). *)
Theorem normalize_zero_special :
  normalize_term_to_standard 0 = Ok 36 ∧
  first_item INDUSTRY_STANDARD_TERMS = Ok 36 ∧
  (∀ terms, normalize_term_in terms 0 = first_item terms) ∧
  normalize_term_in [100; 1] 0 = Ok 100.
Proof. by repeat split. Qed.

(** C8: on a non-negative term the normaliser returns a standard term, a
    standard term is returned unchanged, and normalising the result again
    gives the same result. *)
Theorem normalize_idempotent (t : Z) :
  0 ≤ t →
  ∃ r, normalize_term_to_standard t = Ok r ∧
       r ∈ INDUSTRY_STANDARD_TERMS ∧
       (t ∈ INDUSTRY_STANDARD_TERMS → r = t) ∧
       (normalize_term_to_standard t ≫= normalize_term_to_standard) = Ok r.
Proof.
  intros Ht. destruct (normalize_nonneg t Ht) as (r & Hr & Hnear).
  assert (r ∈ INDUSTRY_STANDARD_TERMS) as Hin by apply Hnear.
  exists r. split; [done|]. split; [done|]. split.
  - intros Hstd. apply elem_of_standard in Hstd.
    apply nearest_of_standard_cases in Hnear. lia.
  - rewrite Hr. simpl.
    apply elem_of_standard in Hin.
    by destruct Hin as [->|[->|[->|[->| ->]]]].
Qed.

Lemma normalize_idempotent_witness :
  ∃ r, normalize_term_to_standard 66 = Ok r ∧
       r ∈ INDUSTRY_STANDARD_TERMS ∧
       (66 ∈ INDUSTRY_STANDARD_TERMS → r = 66) ∧
       (normalize_term_to_standard 66 ≫= normalize_term_to_standard) = Ok r.
Proof. apply (normalize_idempotent 66). lia. Defined.

(** C10: terms outside the table are clamped to its ends: every term from 1
    to 41 gives 36 and every term from 79 upwards gives 84. *)
Theorem normalize_clamps (t : Z) :
  (0 < t ≤ 41 → normalize_term_to_standard t = Ok 36) ∧
  (79 ≤ t → normalize_term_to_standard t = Ok 84).
Proof.
  split; intros Ht;
    (destruct (normalize_nonneg t) as (r & -> & Hnear); [lia|]);
    apply nearest_of_standard_cases in Hnear; f_equal; lia.
Qed.

Lemma normalize_clamps_witness :
  normalize_term_to_standard 12 = Ok 36 ∧
  normalize_term_to_standard 1000000 = Ok 84.
Proof.
  split; [apply (normalize_clamps 12)|apply (normalize_clamps 1000000)]; lia.
Defined.

(** ** The store computation *)

Lemma fresh_loc_ne (h : store) (l : loc) (d : gmap string value) :
  h !! l = Some d → fresh (dom h) ≠ l.
Proof.
  intros Hl Heq. apply (is_fresh (dom h)). rewrite Heq.
  apply elem_of_dom. by exists d.
Qed.

Lemma bind_ok {A B} (m : M A) (k : A → M B) h a h' :
  m h = Some (Ok a, h') → (m ≫= k) h = k a h'.
Proof. intros Hm. unfold mbind, M_bind. by rewrite Hm. Qed.

Lemma bind_raise {A B} (m : M A) (k : A → M B) h e h' :
  m h = Some (Raise e, h') → (m ≫= k) h = Some (Raise e, h').
Proof. intros Hm. unfold mbind, M_bind. by rewrite Hm. Qed.

Lemma dict_copy_run (h : store) l d :
  h !! l = Some d →
  dict_copy l h = Some (Ok (fresh (dom h)), <[fresh (dom h) := d]> h).
Proof. intros Hl. unfold dict_copy. by rewrite Hl. Qed.

Lemma dict_contains_run (h : store) l d k :
  h !! l = Some d →
  dict_contains l k h = Some (Ok (bool_decide (is_Some (d !! k))), h).
Proof. intros Hl. unfold dict_contains. by rewrite Hl. Qed.

Lemma dict_getitem_run (h : store) l d k v :
  h !! l = Some d → d !! k = Some v →
  dict_getitem l k h = Some (Ok v, h).
Proof. intros Hl Hk. unfold dict_getitem. rewrite Hl. simpl. by rewrite Hk. Qed.

Lemma dict_setitem_run (h : store) l d k v :
  h !! l = Some d →
  dict_setitem l k v h = Some (Ok (), <[l := <[k := v]> d]> h).
Proof. intros Hl. unfold dict_setitem. by rewrite Hl. Qed.

(** The three writes to the copy and the return. *)
Lemma write_bounds_run (h : store) out d lo hi :
  h !! out = Some d →
  (dict_setitem out "term_range_min" (VInt lo);;
   dict_setitem out "term_range_max" (VInt hi);;
   dict_setitem out "term_label"
     (VStr (if lo =? hi
            then pretty lo +:+ " Months"
            else pretty lo +:+ "-" +:+ pretty hi +:+ " Months"));;
   mret out) h
  = Some (Ok out, <[out := with_bounds lo hi d]> h).
Proof.
  intros Hout.
  erewrite bind_ok by (by apply dict_setitem_run).
  erewrite bind_ok by (apply dict_setitem_run, lookup_insert_eq).
  erewrite bind_ok by (apply dict_setitem_run, lookup_insert_eq).
  unfold mret, M_ret, with_bounds. by rewrite !insert_insert_eq.
Qed.

(** What a call does to the store: it allocates the copy, and either raises
    with the copy left as allocated or writes the three fields to it. *)
Lemma normalize_rate_terms_run (h : store) (l : loc) (d : gmap string value) :
  h !! l = Some d →
  normalize_rate_terms l h
  = Some (match term_bounds d with
          | Ok (lo, hi) =>
              (Ok (fresh (dom h)), <[fresh (dom h) := with_bounds lo hi d]> h)
          | Raise e => (Raise e, <[fresh (dom h) := d]> h)
          end).
Proof.
  intros Hl. pose proof (fresh_loc_ne h l d Hl) as Hne.
  set (out := fresh (dom h)) in *.
  assert (<[out := d]> h !! l = Some d) as Hl' by by rewrite lookup_insert_ne.
  assert (<[out := d]> h !! out = Some d) as Hout by apply lookup_insert_eq.
  unfold normalize_rate_terms, term_bounds.
  erewrite bind_ok by (by apply dict_copy_run). fold out.
  erewrite bind_ok by (by apply dict_contains_run).
  destruct (d !! "termMonths") as [term|] eqn:Hexact.
  - rewrite bool_decide_eq_true_2 by done.
    destruct (normalize_term_to_standard_dyn term) as [n|e] eqn:Hn; simpl.
    + erewrite bind_ok; [|erewrite bind_ok by (by eapply dict_getitem_run);
        erewrite bind_ok by (unfold lift; by rewrite Hn); reflexivity].
      cbv beta iota.
      rewrite (write_bounds_run _ out d n n Hout). by rewrite insert_insert_eq.
    + erewrite bind_raise; [done|].
      erewrite bind_ok by (by eapply dict_getitem_run).
      erewrite bind_raise; [done|]. unfold lift. by rewrite Hn.
  - rewrite bool_decide_eq_false_2 by (by intros [? ?]).
    destruct (d !! "termMin") as [lo|] eqn:Hmin.
    + destruct (d !! "termMax") as [hi|] eqn:Hmax.
      * destruct (normalize_term_range_dyn lo hi) as [[x y]|e] eqn:Hr.
        -- erewrite bind_ok.
           2:{ erewrite bind_ok by (by apply dict_contains_run).
               rewrite Hmin, bool_decide_eq_true_2 by done.
               erewrite bind_ok by (by apply dict_contains_run).
               rewrite Hmax, bool_decide_eq_true_2 by done.
               erewrite bind_ok by (by eapply dict_getitem_run).
               erewrite bind_ok by (by eapply dict_getitem_run).
               unfold lift. by rewrite Hr. }
           cbv beta iota.
           rewrite (write_bounds_run _ out d x y Hout).
           by rewrite insert_insert_eq.
        -- erewrite bind_raise; [done|].
           erewrite bind_ok by (by apply dict_contains_run).
           rewrite Hmin, bool_decide_eq_true_2 by done.
           erewrite bind_ok by (by apply dict_contains_run).
           rewrite Hmax, bool_decide_eq_true_2 by done.
           erewrite bind_ok by (by eapply dict_getitem_run).
           erewrite bind_ok by (by eapply dict_getitem_run).
           unfold lift. by rewrite Hr.
      * erewrite bind_raise; [done|].
        erewrite bind_ok by (by apply dict_contains_run).
        rewrite Hmin, bool_decide_eq_true_2 by done.
        erewrite bind_ok by (by apply dict_contains_run).
        rewrite Hmax, bool_decide_eq_false_2 by (by intros [? ?]).
        done.
    + erewrite bind_raise; [done|].
      erewrite bind_ok by (by apply dict_contains_run).
      rewrite Hmin, bool_decide_eq_false_2 by (by intros [? ?]).
      by erewrite bind_ok by reflexivity.
Qed.

(** ** The diagnostics dictionary *)

(** C9: for [t >= 0] the info dictionary holds the term, its normalised
    value and their distance, and [wasModified] is true exactly when the
    distance is not 0 and false exactly when [t] is a standard term; at 0 the
    distance is 36 and [wasModified] is true. *)
Theorem normalization_info_consistent (t : Z) :
  0 ≤ t →
  ∃ (n : Z) (m : bool) (info : gmap string value),
    normalize_term_to_standard t = Ok n ∧
    get_term_normalization_info t = Ok info ∧
    info !! "original" = Some (VInt t) ∧
    info !! "normalized" = Some (VInt n) ∧
    info !! "distance" = Some (VInt (Z.abs (t - n))) ∧
    info !! "wasModified" = Some (VBool m) ∧
    (m = true ↔ Z.abs (t - n) ≠ 0) ∧
    (m = false ↔ is_standard_term t = true) ∧
    (t = 0 → Z.abs (t - n) = 36 ∧ m = true).
Proof.
  intros Ht. destruct (normalize_nonneg t Ht) as (n & Hn & Hnear).
  exists n, (negb (t =? n)). eexists.
  split; [done|]. unfold get_term_normalization_info. rewrite Hn.
  split; [reflexivity|]. do 4 (split; [reflexivity|]).
  apply nearest_of_standard_cases in Hnear.
  unfold is_standard_term. rewrite bool_decide_eq_true, elem_of_standard.
  destruct (Z.eqb_spec t n); simpl; repeat split; intros; try done; lia.
Qed.

Lemma normalization_info_consistent_witness :
  ∃ (n : Z) (m : bool) (info : gmap string value),
    normalize_term_to_standard 0 = Ok n ∧
    get_term_normalization_info 0 = Ok info ∧
    info !! "original" = Some (VInt 0) ∧
    info !! "normalized" = Some (VInt n) ∧
    info !! "distance" = Some (VInt (Z.abs (0 - n))) ∧
    info !! "wasModified" = Some (VBool m) ∧
    (m = true ↔ Z.abs (0 - n) ≠ 0) ∧
    (m = false ↔ is_standard_term 0 = true) ∧
    (0 = 0 → Z.abs (0 - n) = 36 ∧ m = true).
Proof. apply (normalization_info_consistent 0). lia. Defined.

Example info_66 :
  get_term_normalization_info 66
  = Ok (list_to_map [ ("original", VInt 66); ("normalized", VInt 60);
                      ("distance", VInt 6); ("wasModified", VBool true) ]).
Proof. reflexivity. Qed.

(** ** The record normaliser *)

Lemma normalize_dyn_int t :
  normalize_term_to_standard_dyn (VInt t) = normalize_term_to_standard t.
Proof. reflexivity. Qed.

Lemma normalize_range_dyn_int a b :
  normalize_term_range_dyn (VInt a) (VInt b) = normalize_term_range a b.
Proof.
  unfold normalize_term_range_dyn, normalize_term_range. simpl.
  by destruct (a >? b).
Qed.

Lemma label_of_eq lo hi :
  (if lo =? hi
   then pretty lo +:+ " Months"
   else pretty lo +:+ "-" +:+ pretty hi +:+ " Months") = label_of lo hi.
Proof.
  unfold label_of. destruct (Z.eqb_spec lo hi).
  - by rewrite bool_decide_eq_true_2.
  - by rewrite bool_decide_eq_false_2.
Qed.

(** When the dispatch gives bounds, the call returns a record carrying them. *)
Lemma returns_bounds_intro (h : gmap nat (gmap string value)) l d lo hi :
  h !! l = Some d → term_bounds d = Ok (lo, hi) → returns_bounds l h lo hi.
Proof.
  intros Hl Hb. exists (fresh (dom h)). eexists. eexists.
  split; [by rewrite (normalize_rate_terms_run h l d Hl), Hb|].
  split; [apply lookup_insert_eq|].
  unfold with_bounds. rewrite label_of_eq.
  by repeat split; simplify_map_eq.
Qed.

Lemma raises_intro (h : gmap nat (gmap string value)) l d e :
  h !! l = Some d → term_bounds d = Raise e →
  ∃ h', normalize_rate_terms l h = Some (Raise e, h').
Proof.
  intros Hl Hb. eexists. by rewrite (normalize_rate_terms_run h l d Hl), Hb.
Qed.

(** C2: a record with [termMonths] gets both bounds set to the normalised
    term, whatever else it holds; a record without it but with [termMin] and
    [termMax] gets the pair of the range normaliser, which is the two bounds
    normalised one by one; the label is "{min} Months" for equal bounds and
    "{min}-{max} Months" otherwise.  An exception of the normaliser called is
    the outcome of the call. *)
Theorem normalize_rate_terms_bounds
    (h : gmap nat (gmap string value)) (l : nat) (d : gmap string value) :
  h !! l = Some d →
  (∀ t n, d !! "termMonths" = Some (VInt t) →
          normalize_term_to_standard t = Ok n →
          returns_bounds l h n n) ∧
  (∀ a b lo hi, d !! "termMonths" = None →
          d !! "termMin" = Some (VInt a) → d !! "termMax" = Some (VInt b) →
          normalize_term_range a b = Ok (lo, hi) →
          normalize_term_to_standard a = Ok lo ∧
          normalize_term_to_standard b = Ok hi ∧
          returns_bounds l h lo hi) ∧
  (∀ t e, d !! "termMonths" = Some (VInt t) →
          normalize_term_to_standard t = Raise e →
          ∃ h', normalize_rate_terms l h = Some (Raise e, h')) ∧
  (∀ a b e, d !! "termMonths" = None →
          d !! "termMin" = Some (VInt a) → d !! "termMax" = Some (VInt b) →
          normalize_term_range a b = Raise e →
          ∃ h', normalize_rate_terms l h = Some (Raise e, h')).
Proof.
  intros Hl. split; [|split; [|split]].
  - intros t n Ht Hn. apply (returns_bounds_intro h l d); [done|].
    unfold term_bounds. by rewrite Ht, normalize_dyn_int, Hn.
  - intros a b lo hi Hno Ha Hb Hr.
    destruct (proj1 (normalize_term_range_ok a b lo hi) Hr) as (_ & Hlo & Hhi).
    split; [done|]. split; [done|].
    apply (returns_bounds_intro h l d); [done|].
    unfold term_bounds. by rewrite Hno, Ha, Hb, normalize_range_dyn_int.
  - intros t e Ht He. apply (raises_intro h l d); [done|].
    unfold term_bounds. by rewrite Ht, normalize_dyn_int, He.
  - intros a b e Hno Ha Hb He. apply (raises_intro h l d); [done|].
    unfold term_bounds. by rewrite Hno, Ha, Hb, normalize_range_dyn_int.
Qed.

Lemma normalize_rate_terms_bounds_witness :
  returns_bounds 0%nat {[ 0%nat := sccu_rate ]} 60 60 ∧
  returns_bounds 0%nat {[ 0%nat := range_rate ]} 36 60.
Proof.
  split.
  - apply (normalize_rate_terms_bounds {[ 0%nat := sccu_rate ]} 0%nat sccu_rate
             (lookup_singleton_eq _ _) ) with (t := 66); reflexivity.
  - apply (normalize_rate_terms_bounds {[ 0%nat := range_rate ]} 0%nat range_rate
             (lookup_singleton_eq _ _) ) with (a := 37) (b := 60); reflexivity.
Defined.

Example label_exact : label_of 60 60 = "60 Months".
Proof. reflexivity. Qed.
Example label_range : label_of 36 60 = "36-60 Months".
Proof. reflexivity. Qed.

(** The exceptions of the two normalisers on arbitrary values. *)
Lemma normalize_raises t e :
  normalize_term_to_standard t = Raise e →
  e = ValueError (invalid_term_msg (pretty t)) ∨
  e = ValueError int_str_limit_msg.
Proof.
  unfold normalize_term_to_standard, normalize_term_in.
  destruct (t =? 0); [done|]. destruct (t <? 0); [|done].
  destruct (int_str_cases t) as [->| ->]; simpl; intros [= <-]; tauto.
Qed.

Lemma py_str_cases v :
  (∃ s, py_str v = Ok s) ∨ py_str v = Raise (ValueError int_str_limit_msg).
Proof.
  destruct v as [|b|z|s]; simpl; try (left; by eexists).
  destruct (int_str_cases z) as [->| ->]; [left; by eexists|by right].
Qed.

Lemma normalize_dyn_raises v e :
  normalize_term_to_standard_dyn v = Raise e →
  e = TypeError ∨ (∃ s, e = ValueError (invalid_term_msg s)) ∨
  e = ValueError int_str_limit_msg.
Proof.
  unfold normalize_term_to_standard_dyn. destruct (as_int v) as [n|].
  - intros [->| ->]%normalize_raises; [|tauto]. right. left. by eexists.
  - intros [= <-]. by left.
Qed.

Lemma normalize_range_dyn_raises a b e :
  normalize_term_range_dyn a b = Raise e →
  e = TypeError ∨ (∃ s, e = ValueError (invalid_term_msg s)) ∨
  (∃ s1 s2, e = ValueError (invalid_range_msg s1 s2)) ∨
  e = ValueError int_str_limit_msg.
Proof.
  unfold normalize_term_range_dyn.
  destruct (py_gt a b) as [[]|e'] eqn:Hgt; simpl.
  - destruct (py_str_cases a) as [[s1 ->]| ->]; simpl;
      [|intros [= <-]; tauto].
    destruct (py_str_cases b) as [[s2 ->]| ->]; simpl;
      [|intros [= <-]; tauto].
    intros [= <-]. right. right. left. by do 2 eexists.
  - destruct (normalize_term_to_standard_dyn a) as [x|e1] eqn:Ha; simpl.
    + destruct (normalize_term_to_standard_dyn b) as [y|e2] eqn:Hb; simpl;
        [done|].
      intros [= <-]. destruct (normalize_dyn_raises _ _ Hb) as [?|[?|?]]; tauto.
    + intros [= <-]. destruct (normalize_dyn_raises _ _ Ha) as [?|[?|?]]; tauto.
  - intros [= <-]. left. revert Hgt. unfold py_gt.
    destruct (as_int a), (as_int b), a, b; congruence.
Qed.

Lemma missing_ne_invalid_term s : missing_terms_msg ≠ invalid_term_msg s.
Proof. discriminate. Qed.

Lemma missing_ne_invalid_range s1 s2 :
  missing_terms_msg ≠ invalid_range_msg s1 s2.
Proof. discriminate. Qed.

Lemma missing_ne_limit : missing_terms_msg ≠ int_str_limit_msg.
Proof. discriminate. Qed.

Lemma normalize_dyn_not_missing v :
  normalize_term_to_standard_dyn v ≠ Raise (ValueError missing_terms_msg).
Proof.
  intros [?|[[s Hs]|Hs]]%normalize_dyn_raises; [done| |].
  - destruct (missing_ne_invalid_term s). congruence.
  - destruct missing_ne_limit. congruence.
Qed.

Lemma normalize_range_dyn_not_missing a b :
  normalize_term_range_dyn a b ≠ Raise (ValueError missing_terms_msg).
Proof.
  intros [?|[[s Hs]|[(s1 & s2 & Hs)|Hs]]]%normalize_range_dyn_raises; [done| | |].
  - destruct (missing_ne_invalid_term s). congruence.
  - destruct (missing_ne_invalid_range s1 s2). congruence.
  - destruct missing_ne_limit. congruence.
Qed.

(** The dispatch raises the missing-terms error only in its last branch. *)
Lemma term_bounds_missing d :
  term_bounds d = Raise (ValueError missing_terms_msg) ↔
  d !! "termMonths" = None ∧
  ¬ (is_Some (d !! "termMin") ∧ is_Some (d !! "termMax")).
Proof.
  unfold term_bounds. destruct (d !! "termMonths") as [term|].
  - split; [|by intros [? _]].
    destruct (normalize_term_to_standard_dyn term) as [n|e] eqn:Hn; [done|].
    simpl. intros [= ->]. by destruct (normalize_dyn_not_missing term).
  - destruct (d !! "termMin") as [lo|]; [destruct (d !! "termMax") as [hi|]|].
    + split; [|intros [_ []]; by split].
      intros Hr. by destruct (normalize_range_dyn_not_missing lo hi).
    + split; [|done]. intros _. split; [done|]. by intros [_ [? ?]].
    + split; [|done]. intros _. split; [done|]. by intros [[? ?] _].
Qed.

(** C5: the call raises the missing-terms [ValueError] exactly when the
    record has neither [termMonths] nor both of [termMin] and [termMax]; that
    exception differs, by its message, from every exception of the term and
    range normalisers. *)
Theorem missing_field_exactly
    (h : gmap nat (gmap string value)) (l : nat) (d : gmap string value) :
  h !! l = Some d →
  ((∃ h', normalize_rate_terms l h
          = Some (Raise (ValueError missing_terms_msg), h')) ↔
   d !! "termMonths" = None ∧
   ¬ (is_Some (d !! "termMin") ∧ is_Some (d !! "termMax"))) ∧
  (∀ t, normalize_term_to_standard t ≠ Raise (ValueError missing_terms_msg)) ∧
  (∀ a b, normalize_term_range a b ≠ Raise (ValueError missing_terms_msg)).
Proof.
  intros Hl. split; [|split].
  - rewrite <- term_bounds_missing, (normalize_rate_terms_run h l d Hl).
    destruct (term_bounds d) as [[lo hi]|e]; split.
    + by intros [h' [=]].
    + done.
    + intros [h' [= -> _]]. done.
    + intros [= ->]. by eexists.
  - intros t. apply (normalize_dyn_not_missing (VInt t)).
  - intros a b. rewrite <- normalize_range_dyn_int.
    apply normalize_range_dyn_not_missing.
Qed.

Lemma missing_field_exactly_witness :
  ∃ h', normalize_rate_terms 0%nat {[ 0%nat := no_term_rate ]}
        = Some (Raise (ValueError missing_terms_msg), h').
Proof.
  apply (missing_field_exactly {[ 0%nat := no_term_rate ]} 0%nat no_term_rate
           (lookup_singleton_eq _ _)).
  split; [reflexivity|]. intros [[v Hv] _]. discriminate Hv.
Defined.

(** C6: the call leaves the caller's record, and every other object of the
    store, as it was; the record it returns is a new object, different from
    the caller's, that holds every field of the input under a key other than
    the three written ones with its value unchanged, [termMonths], [termMin]
    and [termMax] included, and holds the three written fields. *)
Theorem normalize_rate_terms_frame
    (h : gmap nat (gmap string value)) (l : nat) (d : gmap string value) :
  h !! l = Some d →
  ∃ res h',
    normalize_rate_terms l h = Some (res, h') ∧
    h' !! l = Some d ∧
    (∀ l0, is_Some (h !! l0) → h' !! l0 = h !! l0) ∧
    (∀ out, res = Ok out →
       out ≠ l ∧ h !! out = None ∧
       ∃ d', h' !! out = Some d' ∧
             (∀ k, k ∉ written_keys → d' !! k = d !! k) ∧
             (∀ k, k ∈ written_keys → is_Some (d' !! k)) ∧
             d' !! "termMonths" = d !! "termMonths" ∧
             d' !! "termMin" = d !! "termMin" ∧
             d' !! "termMax" = d !! "termMax").
Proof.
  intros Hl. pose proof (fresh_loc_ne h l d Hl) as Hne.
  assert (h !! fresh (dom h) = None) as Hfresh.
  { apply not_elem_of_dom, is_fresh. }
  rewrite (normalize_rate_terms_run h l d Hl).
  assert (∀ d0 l0, is_Some (h !! l0) →
            <[fresh (dom h) := d0]> h !! l0 = h !! l0) as Hother.
  { intros d0 l0 [d1 Hl0]. apply lookup_insert_ne. congruence. }
  destruct (term_bounds d) as [[lo hi]|e]; do 2 eexists;
    (split; [reflexivity|]);
    (split; [by rewrite lookup_insert_ne|]);
    (split; [by apply Hother|]); [|done].
  intros out [= <-]. split; [done|]. split; [done|].
  eexists. split; [apply lookup_insert_eq|]. unfold with_bounds, written_keys.
  split; [|split; [|by simplify_map_eq]].
  - intros k Hk. rewrite !not_elem_of_cons in Hk.
    destruct Hk as (? & ? & ? & _). by rewrite !lookup_insert_ne.
  - intros k Hk. rewrite !elem_of_cons, elem_of_nil in Hk.
    destruct Hk as [->|[->|[->|[]]]]; by simplify_map_eq.
Qed.

Lemma normalize_rate_terms_frame_witness :
  ∃ res h',
    normalize_rate_terms 0%nat {[ 0%nat := sccu_rate ]} = Some (res, h') ∧
    h' !! 0%nat = Some sccu_rate ∧
    (∀ l0, is_Some (({[ 0%nat := sccu_rate ]} : gmap nat _) !! l0) →
           h' !! l0 = ({[ 0%nat := sccu_rate ]} : gmap nat _) !! l0) ∧
    (∀ out, res = Ok out →
       out ≠ 0%nat ∧ ({[ 0%nat := sccu_rate ]} : gmap nat _) !! out = None ∧
       ∃ d', h' !! out = Some d' ∧
             (∀ k, k ∉ written_keys → d' !! k = sccu_rate !! k) ∧
             (∀ k, k ∈ written_keys → is_Some (d' !! k)) ∧
             d' !! "termMonths" = sccu_rate !! "termMonths" ∧
             d' !! "termMin" = sccu_rate !! "termMin" ∧
             d' !! "termMax" = sccu_rate !! "termMax").
Proof.
  apply (normalize_rate_terms_frame {[ 0%nat := sccu_rate ]} 0%nat sccu_rate).
  reflexivity.
Defined.

(** The three records of the specification's examples, run from a store that
    holds only the record: the copy is object 1. *)
Example exact_record_run :
  normalize_rate_terms 0%nat {[ 0%nat := sccu_rate ]}
  = Some (Ok 1%nat,
          <[ 1%nat := <["term_label" := VStr "60 Months"]>
                       (<["term_range_max" := VInt 60]>
                          (<["term_range_min" := VInt 60]> sccu_rate)) ]>
            {[ 0%nat := sccu_rate ]}).
Proof. vm_compute. reflexivity. Qed.

Example range_record_run :
  normalize_rate_terms 0%nat {[ 0%nat := range_rate ]}
  = Some (Ok 1%nat,
          <[ 1%nat := <["term_label" := VStr "36-60 Months"]>
                       (<["term_range_max" := VInt 60]>
                          (<["term_range_min" := VInt 36]> range_rate)) ]>
            {[ 0%nat := range_rate ]}).
Proof. vm_compute. reflexivity. Qed.

Example missing_record_run :
  normalize_rate_terms 0%nat {[ 0%nat := no_term_rate ]}
  = Some (Raise (ValueError missing_terms_msg),
          <[ 1%nat := no_term_rate ]> {[ 0%nat := no_term_rate ]}).
Proof. vm_compute. reflexivity. Qed.

(** A record whose [termMonths] is negative receives the exception of the
    term normaliser, and one whose [termMonths] is a string a [TypeError]. *)
Example negative_record_run :
  normalize_rate_terms 0%nat {[ 0%nat := {[ "termMonths" := VInt (-1) ]} ]}
  = Some (Raise (ValueError
                   "Invalid term: -1. Term must be a non-negative number."),
          <[ 1%nat := {[ "termMonths" := VInt (-1) ]} ]>
            {[ 0%nat := {[ "termMonths" := VInt (-1) ]} ]}).
Proof. vm_compute. reflexivity. Qed.

Example string_record_run :
  normalize_rate_terms 0%nat {[ 0%nat := {[ "termMonths" := VStr "66" ]} ]}
  = Some (Raise TypeError,
          <[ 1%nat := {[ "termMonths" := VStr "66" ]} ]>
            {[ 0%nat := {[ "termMonths" := VStr "66" ]} ]}).
Proof. vm_compute. reflexivity. Qed.

(** * Further properties of the module *)

(** ** Inversion of the outcomes *)

Lemma normalize_ok_inv t r :
  normalize_term_to_standard t = Ok r →
  0 ≤ t ∧ nearest_of t INDUSTRY_STANDARD_TERMS r.
Proof.
  intros Hr. destruct (Z.lt_ge_cases t 0) as [Hneg|Hpos].
  - by destruct (normalize_negative_raises t Hneg) as [H|H]; rewrite H in Hr.
  - split; [done|]. destruct (normalize_nonneg t Hpos) as (r' & Hr' & Hnear).
    congruence.
Qed.

Lemma normalize_dyn_ok_inv v r :
  normalize_term_to_standard_dyn v = Ok r →
  ∃ z, as_int v = Some z ∧ normalize_term_to_standard z = Ok r.
Proof.
  unfold normalize_term_to_standard_dyn.
  destruct (as_int v) as [z|]; [|done]. intros Hr. by exists z.
Qed.

Lemma normalize_range_dyn_ok_inv a b lo hi :
  normalize_term_range_dyn a b = Ok (lo, hi) →
  ∃ x y, as_int a = Some x ∧ as_int b = Some y ∧ x ≤ y ∧
         normalize_term_to_standard x = Ok lo ∧
         normalize_term_to_standard y = Ok hi.
Proof.
  unfold normalize_term_range_dyn.
  destruct (py_gt a b) as [[]|e] eqn:Hgt; simpl; [|  |done].
  { destruct (py_str a); simpl; [destruct (py_str b); simpl|]; done. }
  destruct (normalize_term_to_standard_dyn a) as [lo'|] eqn:Ha; [|done].
  destruct (normalize_term_to_standard_dyn b) as [hi'|] eqn:Hb; [|done].
  simpl. intros [= -> ->].
  apply normalize_dyn_ok_inv in Ha as (x & Hx & Hlo).
  apply normalize_dyn_ok_inv in Hb as (y & Hy & Hhi).
  exists x, y. repeat split; [done..| |done|done].
  unfold py_gt in Hgt. rewrite Hx, Hy in Hgt.
  injection Hgt as Hgt. destruct (Z.gtb_spec x y); [done|lia].
Qed.

(** The two ways the dispatch gives bounds. *)
Lemma term_bounds_ok_inv d lo hi :
  term_bounds d = Ok (lo, hi) →
  (∃ v z, d !! "termMonths" = Some v ∧ as_int v = Some z ∧
          normalize_term_to_standard z = Ok lo ∧ hi = lo) ∨
  (d !! "termMonths" = None ∧
   ∃ a b x y, d !! "termMin" = Some a ∧ d !! "termMax" = Some b ∧
              as_int a = Some x ∧ as_int b = Some y ∧ x ≤ y ∧
              normalize_term_to_standard x = Ok lo ∧
              normalize_term_to_standard y = Ok hi).
Proof.
  unfold term_bounds. destruct (d !! "termMonths") as [v|].
  - destruct (normalize_term_to_standard_dyn v) as [n|] eqn:Hn; [|done].
    simpl. intros [= -> ->].
    apply normalize_dyn_ok_inv in Hn as (z & Hz & Hn).
    left. by exists v, z.
  - destruct (d !! "termMin") as [a|]; [|done].
    destruct (d !! "termMax") as [b|]; [|done].
    intros (x & y & H)%normalize_range_dyn_ok_inv.
    right. split; [done|]. by exists a, b, x, y.
Qed.

Lemma term_bounds_standard d lo hi :
  term_bounds d = Ok (lo, hi) →
  lo ∈ INDUSTRY_STANDARD_TERMS ∧ hi ∈ INDUSTRY_STANDARD_TERMS ∧ lo ≤ hi.
Proof.
  intros [(v & z & _ & _ & Hz & ->)
         |(_ & a & b & x & y & _ & _ & _ & _ & Hxy & Hx & Hy)]%term_bounds_ok_inv.
  - apply normalize_ok_inv in Hz as (_ & Hnear).
    split; [apply Hnear|]. split; [apply Hnear|lia].
  - apply normalize_ok_inv in Hx as (Hx0 & Hx).
    apply normalize_ok_inv in Hy as (Hy0 & Hy).
    split; [apply Hx|]. split; [apply Hy|].
    apply nearest_of_standard_cases in Hx, Hy. lia.
Qed.

Lemma call_ok_inv (h : gmap nat (gmap string value)) l d out h' :
  h !! l = Some d →
  normalize_rate_terms l h = Some (Ok out, h') →
  ∃ lo hi, term_bounds d = Ok (lo, hi) ∧ out = fresh (dom h) ∧
           h' = <[out := with_bounds lo hi d]> h.
Proof.
  intros Hl. rewrite (normalize_rate_terms_run h l d Hl).
  destruct (term_bounds d) as [[lo hi]|e]; [|done].
  intros [= <- <-]. by exists lo, hi.
Qed.

Lemma returns_items_iff (h : gmap nat (gmap string value)) l d d' :
  h !! l = Some d →
  returns_items l h d' ↔
  ∃ lo hi, term_bounds d = Ok (lo, hi) ∧ d' = with_bounds lo hi d.
Proof.
  intros Hl. split.
  - intros (out & h' & Hrun & Hout).
    destruct (call_ok_inv h l d out h' Hl Hrun) as (lo & hi & Hb & _ & ->).
    rewrite lookup_insert_eq in Hout. exists lo, hi. split; congruence.
  - intros (lo & hi & Hb & ->). do 2 eexists.
    split; [by rewrite (normalize_rate_terms_run h l d Hl), Hb|].
    apply lookup_insert_eq.
Qed.

Lemma call_raises_iff (h : gmap nat (gmap string value)) l d e :
  h !! l = Some d → call_raises l h e ↔ term_bounds d = Raise e.
Proof.
  intros Hl. unfold call_raises. rewrite (normalize_rate_terms_run h l d Hl).
  destruct (term_bounds d) as [[lo hi]|e']; split.
  - by intros [h' [=]].
  - done.
  - intros [h' [= -> _]]. done.
  - intros [= ->]. by eexists.
Qed.

(** ** The term normaliser *)

(** X1: on a non-negative term the normaliser is the step function with
    steps after 42, 54, 66 and 78: a term half-way between two standard
    terms goes to the lower one. *)
Theorem normalize_thresholds (t : Z) :
  0 ≤ t →
  normalize_term_to_standard t
  = Ok (if t <=? 42 then 36 else if t <=? 54 then 48
        else if t <=? 66 then 60 else if t <=? 78 then 72 else 84).
Proof.
  intros Ht. destruct (normalize_nonneg t Ht) as (r & -> & Hnear).
  apply nearest_of_standard_cases in Hnear. f_equal.
  repeat (match goal with
          | |- context [?a <=? ?b] => destruct (Z.leb_spec a b)
          end); lia.
Qed.

Lemma normalize_thresholds_witness :
  normalize_term_to_standard 54
  = Ok (if 54 <=? 42 then 36 else if 54 <=? 54 then 48
        else if 54 <=? 66 then 60 else if 54 <=? 78 then 72 else 84).
Proof. apply (normalize_thresholds 54). lia. Defined.

Lemma nearest_of_unique t l r r' :
  nearest_of t l r → nearest_of t l r' → r = r'.
Proof.
  intros [Hr Hbest] [Hr' Hbest'].
  destruct (Hbest r' Hr'), (Hbest' r Hr). lia.
Qed.

Lemma nearest_of_perm t l l' r :
  l ≡ₚ l' → nearest_of t l r → nearest_of t l' r.
Proof.
  intros Hperm. apply nearest_of_equiv. intros c. by rewrite Hperm.
Qed.

(** X2: for a positive term the result of the function body does not depend
    on the order of the table it scans; at 0 it is the first entry of the
    table, so there the order matters. *)
Theorem normalize_order_independent (terms terms' : list Z) (t : Z) :
  terms ≡ₚ terms' → 0 < t →
  normalize_term_in terms t = normalize_term_in terms' t.
Proof.
  intros Hperm Ht. unfold normalize_term_in.
  destruct (Z.eqb_spec t 0); [lia|]. destruct (Z.ltb_spec t 0); [lia|].
  destruct terms as [|c l], terms' as [|c' l'].
  - done.
  - by apply Permutation_nil_cons in Hperm.
  - symmetry in Hperm. by apply Permutation_nil_cons in Hperm.
  - destruct (nearest_scan_spec t c l) as (r & -> & Hr).
    destruct (nearest_scan_spec t c' l') as (r' & -> & Hr').
    f_equal. apply (nearest_of_unique t (c' :: l')); [|done].
    by apply (nearest_of_perm t (c :: l)).
Qed.

Lemma normalize_order_independent_witness :
  normalize_term_in [84; 36; 72; 48; 60] 66
  = normalize_term_in INDUSTRY_STANDARD_TERMS 66 ∧
  normalize_term_in [84; 36; 72; 48; 60] 0
  ≠ normalize_term_in INDUSTRY_STANDARD_TERMS 0.
Proof.
  split; [|discriminate].
  apply (normalize_order_independent [84; 36; 72; 48; 60]
           INDUSTRY_STANDARD_TERMS 66); [|lia].
  unfold INDUSTRY_STANDARD_TERMS.
  apply (Permutation_trans (l' := [36; 84; 72; 48; 60])); [apply perm_swap|].
  apply perm_skip.
  apply (Permutation_trans (l' := [72; 84; 48; 60])); [apply perm_swap|].
  apply (Permutation_trans (l' := [72; 48; 84; 60]));
    [apply perm_skip, perm_swap|].
  apply (Permutation_trans (l' := [48; 72; 84; 60])); [apply perm_swap|].
  apply perm_skip.
  apply (Permutation_trans (l' := [72; 60; 84]));
    [apply perm_skip, perm_swap|].
  apply (Permutation_trans (l' := [60; 72; 84])); [apply perm_swap|].
  reflexivity.
Defined.

(** ** The range normaliser *)

Lemma range_first_raises a b :
  a ≤ b → ∀ e, normalize_term_to_standard a = Raise e →
  normalize_term_range a b = Raise e.
Proof.
  intros Hle e He. unfold normalize_term_range.
  destruct (Z.gtb_spec a b); [lia|]. by rewrite He.
Qed.



(** ** The diagnostics dictionary *)

(** X4: the reported distance is at most 6 exactly for the terms from 30 to
    90; below 36 it is [36 - t] and above 84 it is [t - 84], without bound. *)
Theorem normalization_distance (t : Z) :
  0 ≤ t →
  ∃ (dist : Z) (info : gmap string value),
    get_term_normalization_info t = Ok info ∧
    info !! "distance" = Some (VInt dist) ∧
    0 ≤ dist ∧
    (dist ≤ 6 ↔ 30 ≤ t ≤ 90) ∧
    (t ≤ 36 → dist = 36 - t) ∧
    (84 ≤ t → dist = t - 84).
Proof.
  intros Ht. destruct (normalize_nonneg t Ht) as (n & Hn & Hnear).
  exists (Z.abs (t - n)). eexists.
  unfold get_term_normalization_info. rewrite Hn.
  split; [reflexivity|]. split; [reflexivity|].
  apply nearest_of_standard_cases in Hnear. lia.
Qed.

Lemma normalization_distance_witness :
  ∃ (dist : Z) (info : gmap string value),
    get_term_normalization_info 120 = Ok info ∧
    info !! "distance" = Some (VInt dist) ∧
    0 ≤ dist ∧
    (dist ≤ 6 ↔ 30 ≤ 120 ≤ 90) ∧
    (120 ≤ 36 → dist = 36 - 120) ∧
    (84 ≤ 120 → dist = 120 - 84).
Proof. apply (normalization_distance 120). lia. Defined.



(** X6: the info of an already normalised term reports no change: for
    [t >= 0] with normalised value [r], [r] is a standard term and its info is
    the dictionary with distance 0 and [wasModified] false. *)
Theorem info_of_normalized (t : Z) :
  0 ≤ t →
  ∃ r, normalize_term_to_standard t = Ok r ∧
       is_standard_term r = true ∧
       get_term_normalization_info r
       = Ok (list_to_map [ ("original", VInt r); ("normalized", VInt r);
                           ("distance", VInt 0);
                           ("wasModified", VBool false) ]).
Proof.
  intros Ht. destruct (normalize_nonneg t Ht) as (r & Hr & Hnear).
  exists r. split; [done|].
  assert (r ∈ INDUSTRY_STANDARD_TERMS) as Hin by apply Hnear.
  split; [by apply bool_decide_eq_true|].
  apply elem_of_standard in Hin.
  by destruct Hin as [->|[->|[->|[->| ->]]]].
Qed.

Lemma info_of_normalized_witness :
  ∃ r, normalize_term_to_standard 66 = Ok r ∧
       is_standard_term r = true ∧
       get_term_normalization_info r
       = Ok (list_to_map [ ("original", VInt r); ("normalized", VInt r);
                           ("distance", VInt 0);
                           ("wasModified", VBool false) ]).
Proof. apply (info_of_normalized 66). lia. Defined.

(** ** The record normaliser *)

Lemma returns_bounds_iff (h : gmap nat (gmap string value)) l d lo hi :
  h !! l = Some d → returns_bounds l h lo hi ↔ term_bounds d = Ok (lo, hi).
Proof.
  intros Hl. split; [|by apply returns_bounds_intro].
  intros (out & h' & d' & Hrun & Hout & Hlo & Hhi & _).
  destruct (call_ok_inv h l d out h' Hl Hrun) as (lo' & hi' & Hb & _ & ->).
  rewrite lookup_insert_eq in Hout. injection Hout as <-.
  unfold with_bounds in Hlo, Hhi. simplify_map_eq. done.
Qed.

Lemma label_of_inj_standard lo hi lo' hi' :
  lo ∈ INDUSTRY_STANDARD_TERMS → hi ∈ INDUSTRY_STANDARD_TERMS →
  lo' ∈ INDUSTRY_STANDARD_TERMS → hi' ∈ INDUSTRY_STANDARD_TERMS →
  label_of lo hi = label_of lo' hi' → lo = lo' ∧ hi = hi'.
Proof.
  rewrite !elem_of_standard.
  intros [->|[->|[->|[->| ->]]]] [->|[->|[->|[->| ->]]]]
         [->|[->|[->|[->| ->]]]] [->|[->|[->|[->| ->]]]] Heq;
    vm_compute in Heq; first [discriminate Heq | done].
Qed.

Lemma output_record_standard
    (h : gmap nat (gmap string value)) (l : nat) (d d' : gmap string value) :
  h !! l = Some d → returns_items l h d' →
  ∃ lo hi,
    term_bounds d = Ok (lo, hi) ∧
    d' !! "term_range_min" = Some (VInt lo) ∧
    d' !! "term_range_max" = Some (VInt hi) ∧
    d' !! "term_label" = Some (VStr (label_of lo hi)) ∧
    lo ∈ INDUSTRY_STANDARD_TERMS ∧ hi ∈ INDUSTRY_STANDARD_TERMS.
Proof.
  intros Hl (lo & hi & Hb & ->)%(returns_items_iff h l d d' Hl).
  exists lo, hi. split; [done|]. unfold with_bounds. rewrite label_of_eq.
  do 3 (split; [by simplify_map_eq|]).
  destruct (term_bounds_standard d lo hi Hb) as (? & ? & _). by split.
Qed.

(** X7: when the term fields of the input hold integers, the record the call
    returns carries two standard terms with
    [term_range_min <= term_range_max] and the label of that pair. *)
Theorem output_record_invariant
    (h : gmap nat (gmap string value)) (l : nat) (d d' : gmap string value) :
  h !! l = Some d → integer_terms d → returns_items l h d' →
  ∃ lo hi,
    d' !! "term_range_min" = Some (VInt lo) ∧
    d' !! "term_range_max" = Some (VInt hi) ∧
    d' !! "term_label" = Some (VStr (label_of lo hi)) ∧
    lo ∈ INDUSTRY_STANDARD_TERMS ∧ hi ∈ INDUSTRY_STANDARD_TERMS ∧ lo ≤ hi.
Proof.
  intros Hl _ Hret.
  destruct (output_record_standard h l d d' Hl Hret)
    as (lo & hi & Hb & Hlo & Hhi & Hlab & Hin & Hin').
  exists lo, hi. do 5 (split; [done|]).
  by apply (term_bounds_standard d lo hi).
Qed.

Lemma output_record_invariant_witness :
  ∃ lo hi,
    with_bounds 36 60 range_rate !! "term_range_min" = Some (VInt lo) ∧
    with_bounds 36 60 range_rate !! "term_range_max" = Some (VInt hi) ∧
    with_bounds 36 60 range_rate !! "term_label"
    = Some (VStr (label_of lo hi)) ∧
    lo ∈ INDUSTRY_STANDARD_TERMS ∧ hi ∈ INDUSTRY_STANDARD_TERMS ∧ lo ≤ hi.
Proof.
  apply (output_record_invariant {[ 0%nat := range_rate ]} 0%nat range_rate
           (with_bounds 36 60 range_rate) (lookup_singleton_eq _ _)).
  - intros k v Hk. unfold term_keys in Hk.
    rewrite !elem_of_cons, elem_of_nil in Hk.
    destruct Hk as [->|[->|[->|[]]]]; vm_compute; intros [= <-]; by eexists.
  - exists 1%nat. eexists. split; [vm_compute; reflexivity|]. reflexivity.
Defined.

(** X8: the label identifies the bounds: two records returned by the call
    with the same [term_label] have the same [term_range_min] and the same
    [term_range_max]. *)
Theorem label_determines_bounds
    (h1 h2 : gmap nat (gmap string value)) (l1 l2 : nat)
    (d1 d2 d1' d2' : gmap string value) :
  h1 !! l1 = Some d1 → h2 !! l2 = Some d2 →
  returns_items l1 h1 d1' → returns_items l2 h2 d2' →
  d1' !! "term_label" = d2' !! "term_label" →
  d1' !! "term_range_min" = d2' !! "term_range_min" ∧
  d1' !! "term_range_max" = d2' !! "term_range_max".
Proof.
  intros Hl1 Hl2 Hr1 Hr2 Hlabel.
  destruct (output_record_standard h1 l1 d1 d1' Hl1 Hr1)
    as (lo1 & hi1 & _ & Hlo1 & Hhi1 & Hlab1 & ? & ?).
  destruct (output_record_standard h2 l2 d2 d2' Hl2 Hr2)
    as (lo2 & hi2 & _ & Hlo2 & Hhi2 & Hlab2 & ? & ?).
  rewrite Hlab1, Hlab2 in Hlabel. injection Hlabel as Hlabel.
  destruct (label_of_inj_standard lo1 hi1 lo2 hi2) as [-> ->]; [done..|].
  by rewrite Hlo1, Hhi1, Hlo2, Hhi2.
Qed.

Lemma label_determines_bounds_witness :
  with_bounds 60 60 sccu_rate !! "term_range_min"
  = with_bounds 60 60 {[ "termMonths" := VInt 58 ]} !! "term_range_min" ∧
  with_bounds 60 60 sccu_rate !! "term_range_max"
  = with_bounds 60 60 {[ "termMonths" := VInt 58 ]} !! "term_range_max".
Proof.
  apply (label_determines_bounds
           {[ 0%nat := sccu_rate ]} {[ 0%nat := {[ "termMonths" := VInt 58 ]} ]}
           0%nat 0%nat sccu_rate {[ "termMonths" := VInt 58 ]}).
  - reflexivity.
  - reflexivity.
  - exists 1%nat. eexists. split; [vm_compute; reflexivity|]. reflexivity.
  - exists 1%nat. eexists. split; [vm_compute; reflexivity|]. reflexivity.
  - reflexivity.
Defined.

Lemma term_bounds_with_bounds lo hi d :
  term_bounds (with_bounds lo hi d) = term_bounds d.
Proof. unfold term_bounds, with_bounds. by rewrite !lookup_insert_ne. Qed.

Lemma with_bounds_idemp lo hi d :
  with_bounds lo hi (with_bounds lo hi d) = with_bounds lo hi d.
Proof.
  unfold with_bounds. apply map_eq. intros k.
  destruct (decide (k = "term_label")) as [->|?]; [by simplify_map_eq|].
  destruct (decide (k = "term_range_max")) as [->|?]; [by simplify_map_eq|].
  destruct (decide (k = "term_range_min")) as [->|?]; by simplify_map_eq.
Qed.

(** X9: normalising a record the call returned gives a record with the same
    items again, as a third object; the first result and the caller's record
    stay as they were. *)
Theorem normalize_rate_terms_twice
    (h h' : gmap nat (gmap string value)) (l out : nat)
    (d : gmap string value) :
  h !! l = Some d →
  normalize_rate_terms l h = Some (Ok out, h') →
  ∃ d' out2 h'',
    h' !! out = Some d' ∧
    normalize_rate_terms out h' = Some (Ok out2, h'') ∧
    out2 ≠ out ∧ out2 ≠ l ∧
    h'' !! out2 = Some d' ∧ h'' !! out = Some d' ∧ h'' !! l = Some d.
Proof.
  intros Hl Hrun.
  destruct (call_ok_inv h l d out h' Hl Hrun) as (lo & hi & Hb & Hfresh & ->).
  assert (out ≠ l) as Hne by (rewrite Hfresh; by apply (fresh_loc_ne h l d)).
  set (h' := <[out := with_bounds lo hi d]> h).
  assert (h' !! out = Some (with_bounds lo hi d)) as Hout
    by apply lookup_insert_eq.
  assert (h' !! l = Some d) as Hl' by (unfold h'; by rewrite lookup_insert_ne).
  exists (with_bounds lo hi d), (fresh (dom h')). eexists.
  split; [done|]. split.
  { rewrite (normalize_rate_terms_run h' out _ Hout).
    by rewrite term_bounds_with_bounds, Hb, with_bounds_idemp. }
  pose proof (fresh_loc_ne h' out _ Hout).
  pose proof (fresh_loc_ne h' l _ Hl').
  split; [done|]. split; [done|].
  split; [apply lookup_insert_eq|]. by rewrite !lookup_insert_ne.
Qed.

Lemma normalize_rate_terms_twice_witness :
  ∃ d' out2 h'',
    <[ 1%nat := with_bounds 60 60 sccu_rate ]>
      ({[ 0%nat := sccu_rate ]} : gmap nat _) !! 1%nat = Some d' ∧
    normalize_rate_terms 1%nat
      (<[ 1%nat := with_bounds 60 60 sccu_rate ]> {[ 0%nat := sccu_rate ]})
    = Some (Ok out2, h'') ∧
    out2 ≠ 1%nat ∧ out2 ≠ 0%nat ∧
    h'' !! out2 = Some d' ∧ h'' !! 1%nat = Some d' ∧
    h'' !! 0%nat = Some sccu_rate.
Proof.
  apply (normalize_rate_terms_twice {[ 0%nat := sccu_rate ]}).
  - reflexivity.
  - vm_compute. reflexivity.
Defined.

(** X10: the outcome depends on the record only through [termMonths],
    [termMin] and [termMax]: two records that agree on these three keys raise
    the same exceptions and receive the same bounds, whatever their other
    fields hold, earlier values of the three written fields included. *)
Theorem outcome_depends_on_term_keys
    (h1 h2 : gmap nat (gmap string value)) (l1 l2 : nat)
    (d1 d2 : gmap string value) :
  h1 !! l1 = Some d1 → h2 !! l2 = Some d2 →
  d1 !! "termMonths" = d2 !! "termMonths" →
  d1 !! "termMin" = d2 !! "termMin" →
  d1 !! "termMax" = d2 !! "termMax" →
  (∀ e, call_raises l1 h1 e ↔ call_raises l2 h2 e) ∧
  (∀ lo hi, returns_bounds l1 h1 lo hi ↔ returns_bounds l2 h2 lo hi).
Proof.
  intros Hl1 Hl2 Hexact Hmin Hmax.
  assert (term_bounds d1 = term_bounds d2) as Hb.
  { unfold term_bounds. by rewrite Hexact, Hmin, Hmax. }
  split.
  - intros e.
    by rewrite (call_raises_iff h1 l1 d1 e Hl1),
               (call_raises_iff h2 l2 d2 e Hl2), Hb.
  - intros lo hi.
    by rewrite (returns_bounds_iff h1 l1 d1 lo hi Hl1),
               (returns_bounds_iff h2 l2 d2 lo hi Hl2), Hb.
Qed.

Lemma outcome_depends_on_term_keys_witness :
  returns_bounds 0%nat {[ 0%nat := sccu_rate ]} 60 60 ↔
  returns_bounds 5%nat
    {[ 5%nat := <["term_range_min" := VStr "stale"]>
                  {[ "termMonths" := VInt 66 ]} ]} 60 60.
Proof.
  apply (outcome_depends_on_term_keys
           {[ 0%nat := sccu_rate ]}
           {[ 5%nat := <["term_range_min" := VStr "stale"]>
                         {[ "termMonths" := VInt 66 ]} ]}
           0%nat 5%nat sccu_rate
           (<["term_range_min" := VStr "stale"]> {[ "termMonths" := VInt 66 ]}));
    reflexivity.
Defined.

(** X11: the dispatch tests the presence of [termMonths], not its value: when
    the key holds [None] or a string the call raises [TypeError], also when
    the record has a valid [termMin] and [termMax]. *)
Theorem non_numeric_term_months_raises
    (h : gmap nat (gmap string value)) (l : nat) (d : gmap string value)
    (v : value) :
  h !! l = Some d →
  d !! "termMonths" = Some v →
  v = VNone ∨ (∃ s, v = VStr s) →
  call_raises l h TypeError.
Proof.
  intros Hl Hv Hty. apply (call_raises_iff h l d _ Hl).
  unfold term_bounds. rewrite Hv.
  by destruct Hty as [->|[s ->]].
Qed.

Lemma non_numeric_term_months_raises_witness :
  call_raises 0%nat
    {[ 0%nat := <["termMonths" := VNone]> range_rate ]} TypeError.
Proof.
  apply (non_numeric_term_months_raises
           {[ 0%nat := <["termMonths" := VNone]> range_rate ]} 0%nat
           (<["termMonths" := VNone]> range_rate) VNone).
  - reflexivity.
  - reflexivity.
  - by left.
Defined.

(** X12: a record with [termMin = termMax = a] and no [termMonths] has the
    outcome of a record with [termMonths = a]: the same bounds, or for a
    negative [a] the same invalid-term error. *)
Theorem single_point_range_as_exact
    (h1 h2 : gmap nat (gmap string value)) (l1 l2 : nat)
    (d1 d2 : gmap string value) (a : Z) :
  h1 !! l1 = Some d1 → h2 !! l2 = Some d2 →
  d1 !! "termMonths" = Some (VInt a) →
  d2 !! "termMonths" = None →
  d2 !! "termMin" = Some (VInt a) → d2 !! "termMax" = Some (VInt a) →
  (∀ e, call_raises l1 h1 e ↔ call_raises l2 h2 e) ∧
  (∀ lo hi, returns_bounds l1 h1 lo hi ↔ returns_bounds l2 h2 lo hi).
Proof.
  intros Hl1 Hl2 Hexact Hno Hmin Hmax.
  assert (term_bounds d1 = term_bounds d2) as Hb.
  { unfold term_bounds. rewrite Hexact, Hno, Hmin, Hmax.
    unfold normalize_term_range_dyn, py_gt. simpl.
    destruct (Z.gtb_spec a a); [lia|]. simpl.
    rewrite normalize_dyn_int.
    by destruct (normalize_term_to_standard a) as [n|e] eqn:Hn;
      simpl; rewrite ?Hn. }
  split.
  - intros e.
    by rewrite (call_raises_iff h1 l1 d1 e Hl1),
               (call_raises_iff h2 l2 d2 e Hl2), Hb.
  - intros lo hi.
    by rewrite (returns_bounds_iff h1 l1 d1 lo hi Hl1),
               (returns_bounds_iff h2 l2 d2 lo hi Hl2), Hb.
Qed.

Lemma single_point_range_as_exact_witness :
  returns_bounds 0%nat {[ 0%nat := sccu_rate ]} 60 60 ↔
  returns_bounds 0%nat
    {[ 0%nat := <["termMin" := VInt 66]> {[ "termMax" := VInt 66 ]} ]} 60 60.
Proof.
  apply (single_point_range_as_exact
           {[ 0%nat := sccu_rate ]}
           {[ 0%nat := <["termMin" := VInt 66]> {[ "termMax" := VInt 66 ]} ]}
           0%nat 0%nat sccu_rate
           (<["termMin" := VInt 66]> {[ "termMax" := VInt 66 ]}) 66);
    reflexivity.
Defined.

Lemma as_int_typed v z :
  as_int v = Some z → v ≠ VNone ∧ ∀ s, v ≠ VStr s.
Proof. by destruct v. Qed.



(** X14: the keys of a returned record are the keys of the input together
    with the three written keys. *)
Theorem output_keys
    (h : gmap nat (gmap string value)) (l : nat) (d d' : gmap string value) :
  h !! l = Some d → returns_items l h d' →
  dom d' = dom d ∪ list_to_set written_keys.
Proof.
  intros Hl (lo & hi & _ & ->)%(returns_items_iff h l d d' Hl).
  unfold with_bounds, written_keys. rewrite !dom_insert_L.
  cbn [list_to_set]. apply set_eq. intros k.
  rewrite !elem_of_union, elem_of_empty. tauto.
Qed.

Lemma output_keys_witness :
  dom (with_bounds 60 60 sccu_rate)
  = dom sccu_rate ∪ list_to_set written_keys.
Proof.
  apply (output_keys {[ 0%nat := sccu_rate ]} 0%nat sccu_rate
           (with_bounds 60 60 sccu_rate) (lookup_singleton_eq _ _)).
  exists 1%nat. eexists. split; [vm_compute; reflexivity|]. reflexivity.
Defined.

(** The exceptions of the normalisers on a value whose integer, if it is one,
    can be rendered. *)
Lemma normalize_dyn_raises_within v e :
  (∀ z, v = VInt z → decimal_digits z ≤ int_max_str_digits) →
  normalize_term_to_standard_dyn v = Raise e →
  e = TypeError ∨ ∃ s, e = ValueError (invalid_term_msg s).
Proof.
  intros Hd. destruct v as [|c|z|s].
  - intros [= <-]. by left.
  - unfold normalize_term_to_standard_dyn. simpl. intros Hn.
    destruct (normalize_nonneg (if c then 1 else 0)) as (r & Hr & _);
      [by destruct c|congruence].
  - unfold normalize_term_to_standard_dyn. simpl. intros Hn.
    destruct (Z.lt_ge_cases z 0) as [Hz|Hz].
    + rewrite (normalize_negative_within z Hz (Hd z eq_refl)) in Hn.
      injection Hn as <-. right. by eexists.
    + destruct (normalize_nonneg z Hz) as (r & Hr & _). congruence.
  - intros [= <-]. by left.
Qed.

Lemma py_str_within v :
  (∀ z, v = VInt z → decimal_digits z ≤ int_max_str_digits) →
  ∃ s, py_str v = Ok s.
Proof.
  intros Hd. destruct v as [|c|z|s]; simpl; try by eexists.
  rewrite (int_str_within z (Hd z eq_refl)). by eexists.
Qed.

Lemma normalize_range_dyn_raises_within a b e :
  (∀ z, a = VInt z → decimal_digits z ≤ int_max_str_digits) →
  (∀ z, b = VInt z → decimal_digits z ≤ int_max_str_digits) →
  normalize_term_range_dyn a b = Raise e →
  e = TypeError ∨ (∃ s, e = ValueError (invalid_term_msg s)) ∨
  ∃ s1 s2, e = ValueError (invalid_range_msg s1 s2).
Proof.
  intros Hda Hdb. unfold normalize_term_range_dyn.
  destruct (py_gt a b) as [[]|e'] eqn:Hgt; simpl.
  - destruct (py_str_within a Hda) as [s1 ->].
    destruct (py_str_within b Hdb) as [s2 ->]. simpl.
    intros [= <-]. right. right. by do 2 eexists.
  - destruct (normalize_term_to_standard_dyn a) as [x|e1] eqn:Ha; simpl.
    + destruct (normalize_term_to_standard_dyn b) as [y|e2] eqn:Hb; simpl;
        [done|].
      intros [= <-].
      destruct (normalize_dyn_raises_within _ _ Hdb Hb); tauto.
    + intros [= <-].
      destruct (normalize_dyn_raises_within _ _ Hda Ha); tauto.
  - intros [= <-]. left. revert Hgt. unfold py_gt.
    destruct (as_int a), (as_int b), a, b; congruence.
Qed.

Lemma term_bounds_raises d e :
  term_bounds d = Raise e → e = TypeError ∨ ∃ msg, e = ValueError msg.
Proof.
  unfold term_bounds. destruct (d !! "termMonths") as [v|].
  - destruct (normalize_term_to_standard_dyn v) as [n|e'] eqn:Hn; simpl;
      [done|].
    intros [= <-].
    destruct (normalize_dyn_raises _ _ Hn) as [->|[[s ->]| ->]];
      [by left|right; by eexists..].
  - destruct (d !! "termMin") as [a|]; [destruct (d !! "termMax") as [b|]|].
    + intros Hr.
      destruct (normalize_range_dyn_raises _ _ _ Hr)
        as [->|[[s ->]|[(s1 & s2 & ->)| ->]]];
        [by left|right; by eexists..].
    + intros [= <-]. right. by eexists.
    + intros [= <-]. right. by eexists.
Qed.

Lemma term_bounds_raises_printable d e :
  printable_ints d →
  term_bounds d = Raise e →
  e = TypeError ∨
  (∃ s, e = ValueError (invalid_term_msg s)) ∨
  (∃ s1 s2, e = ValueError (invalid_range_msg s1 s2)) ∨
  e = ValueError missing_terms_msg.
Proof.
  intros Hp. unfold term_bounds.
  destruct (d !! "termMonths") as [v|] eqn:Hv.
  - destruct (normalize_term_to_standard_dyn v) as [n|e'] eqn:Hn; simpl;
      [done|].
    intros [= <-].
    destruct (normalize_dyn_raises_within v e') as [?|?]; [|done|tauto..].
    intros z ->. by apply (Hp "termMonths").
  - destruct (d !! "termMin") as [a|] eqn:Ha;
      [destruct (d !! "termMax") as [b|] eqn:Hb|].
    + intros Hr.
      destruct (normalize_range_dyn_raises_within a b e) as [?|[?|?]];
        [| |done|tauto..].
      * intros z ->. by apply (Hp "termMin").
      * intros z ->. by apply (Hp "termMax").
    + intros [= <-]. by do 3 right.
    + intros [= <-]. by do 3 right.
Qed.



(** X16: with strings under [termMin] and [termMax] (and no [termMonths])
    the call never returns: the strings are compared as strings, so it raises
    the invalid-range error when [termMin] is the greater string and
    [TypeError], from normalising [termMin], otherwise. *)
Theorem string_range_raises
    (h : gmap nat (gmap string value)) (l : nat) (d : gmap string value)
    (s t : string) :
  h !! l = Some d →
  d !! "termMonths" = None →
  d !! "termMin" = Some (VStr s) → d !! "termMax" = Some (VStr t) →
  call_raises l h
    (if String.ltb t s then ValueError (invalid_range_msg s t)
     else TypeError).
Proof.
  intros Hl Hno Hmin Hmax. apply (call_raises_iff h l d _ Hl).
  unfold term_bounds. rewrite Hno, Hmin, Hmax.
  unfold normalize_term_range_dyn, py_gt. simpl.
  by destruct (String.ltb t s).
Qed.

Lemma string_range_raises_witness :
  call_raises 0%nat
    {[ 0%nat := <["termMin" := VStr "72"]> {[ "termMax" := VStr "100" ]} ]}
    (ValueError "Invalid range: min (72) > max (100)") ∧
  call_raises 0%nat
    {[ 0%nat := <["termMin" := VStr "36"]> {[ "termMax" := VStr "60" ]} ]}
    TypeError.
Proof.
  split.
  - apply (string_range_raises
             {[ 0%nat := <["termMin" := VStr "72"]> {[ "termMax" := VStr "100" ]} ]}
             0%nat (<["termMin" := VStr "72"]> {[ "termMax" := VStr "100" ]})
             "72" "100"); reflexivity.
  - apply (string_range_raises
             {[ 0%nat := <["termMin" := VStr "36"]> {[ "termMax" := VStr "60" ]} ]}
             0%nat (<["termMin" := VStr "36"]> {[ "termMax" := VStr "60" ]})
             "36" "60"); reflexivity.
Defined.
